(** * fix_xcode_project.py: the line filter of the Xcode project file

    The script reads [XCAChatGPT.xcodeproj/project.pbxproj], splits the text
    on newlines, drops every line that mentions one of seven deleted Swift
    files (unless the line also mentions [PDFDrawerComponents.swift]),
    joins what is left with newlines and writes it back to the same path.

    Python text is modelled as [string]; a character of the model is one
    byte of the UTF-8 text.  The file names searched for are plain ASCII, so
    searching for them in the bytes finds the same occurrences as searching
    in the code points. *)

From Stdlib Require Import Ascii.
From Stdlib Require String.
From stdpp Require Import base list strings gmap.

(** ** Python string primitives *)

Module Str.

(** The newline character ['\n']. *)
Definition nl : ascii := "010"%char.

(** [hay.startswith(needle)]. *)
Fixpoint starts_with (needle hay : string) : bool :=
  match needle, hay with
  | EmptyString, _ => true
  | String _ _, EmptyString => false
  | String a needle', String b hay' =>
      if decide (a = b) then starts_with needle' hay' else false
  end.

(** [needle in hay]: a left-to-right scan for the first position at which
    [needle] starts. *)
Fixpoint contains (needle hay : string) : bool :=
  if starts_with needle hay then true
  else match hay with
       | EmptyString => false
       | String _ hay' => contains needle hay'
       end.

(** The mathematical reading of [needle in hay]. *)
Definition occurs_in (needle hay : string) : Prop :=
  ∃ before after, hay = before +:+ needle +:+ after.

(** [content.split('\n')]: the pieces between newlines.  The result is
    never empty; a text without newline is a single piece. *)
Fixpoint split (content : string) : list string :=
  match content with
  | EmptyString => [EmptyString]
  | String c rest =>
      if decide (c = nl) then EmptyString :: split rest
      else match split rest with
           | piece :: pieces => String c piece :: pieces
           | [] => [String c EmptyString]
           end
  end.

(** ['\n'.join(pieces)]. *)
Fixpoint join (pieces : list string) : string :=
  match pieces with
  | [] => EmptyString
  | [piece] => piece
  | piece :: pieces' => piece +:+ String nl (join pieces')
  end.

(** A line holds no newline character. *)
Fixpoint newline_free (s : string) : Prop :=
  match s with
  | EmptyString => True
  | String c s' => c ≠ nl ∧ newline_free s'
  end.

End Str.

(** ** The interpreter's file primitives

    The script touches the outside world through [open], [f.read],
    [f.write] and [print] only.  The world is a table of files and
    directories, the trace of the calls made so far, and three facts about
    the machine that the script cannot change: where links lead, which byte
    strings the text codec of the locale accepts, and which messages the
    codec of standard output can encode.

    The model is that of a POSIX system: a file holds bytes, text mode
    decodes them on reading and turns every line ending into ['\n'], and
    writes ['\n'] as it is.  A decoded text is represented by its bytes, as
    for UTF-8.  The working directory and the root are taken to be
    directories that can be searched and written. *)

Module OS.

Inductive os_error : Type :=
| FileNotFoundError
| PermissionError
| IsADirectoryError
| NotADirectoryError
| UnicodeDecodeError
| UnicodeEncodeError.

Inductive node : Type :=
| RegularFile (readable writable : bool) (data : string)
| Directory (searchable writable : bool).

Inductive syscall : Type :=
| OpenRead (path : string)
| OpenWrite (path : string)
| WriteData (path : string) (data : string)
| PrintLine (message : string)
| Traceback (error : os_error).

(** [files] is keyed by the name a file is stored under; [resolve] gives,
    for a path, the name of the file it leads to once symbolic and hard
    links are followed (the path itself where there is no link), so two
    paths with the same name share one file. *)
Record world : Type := World {
  files : gmap string node;
  trace : list syscall;
  resolve : string → string;
  decodable : string → bool;
  stdout_accepts : string → bool;
}.

Definition log (call : syscall) (w : world) : world :=
  {| files := files w; trace := trace w ++ [call];
     resolve := resolve w; decodable := decodable w;
     stdout_accepts := stdout_accepts w |}.

Definition store (name : string) (n : node) (w : world) : world :=
  {| files := <[name := n]> (files w); trace := trace w;
     resolve := resolve w; decodable := decodable w;
     stdout_accepts := stdout_accepts w |}.

(** A world without links, in which every byte string decodes and every
    message can be printed. *)
Definition plain_world (table : gmap string node) : world :=
  {| files := table; trace := [];
     resolve := λ path, path; decodable := λ _, true;
     stdout_accepts := λ _, true |}.

(** A computation either returns a value or raises; no construct of the
    script catches an exception, so a raised error ends the run. *)
Inductive result (A : Type) : Type :=
| Ok (value : A)
| Raise (error : os_error).
Arguments Ok {A} value.
Arguments Raise {A} error.

Definition io (A : Type) : Type := world → result A * world.

Definition io_ret {A} (value : A) : io A := λ w, (Ok value, w).

Definition io_bind {A B} (m : io A) (k : A → io B) : io B :=
  λ w, match m w with
       | (Ok value, w') => k value w'
       | (Raise error, w') => (Raise error, w')
       end.

#[global] Instance io_mret : MRet io := @io_ret.
#[global] Instance io_mbind : MBind io := λ A B k m, io_bind m k.

(** The carriage return ['\r']. *)
Definition cr : ascii := "013"%char.

(** Reading in text mode: ['\r\n'] and a lone ['\r'] both become ['\n']. *)
Fixpoint universal_newlines (data : string) : string :=
  match data with
  | EmptyString => EmptyString
  | String c rest =>
      if decide (c = cr)
      then String Str.nl
             match rest with
             | String c' rest' =>
                 if decide (c' = Str.nl) then universal_newlines rest'
                 else universal_newlines rest
             | EmptyString => EmptyString
             end
      else String c (universal_newlines rest)
  end.

(** A text holds no carriage return. *)
Fixpoint cr_free (s : string) : Prop :=
  match s with
  | EmptyString => True
  | String c s' => c ≠ cr ∧ cr_free s'
  end.

(** The directories to walk through to reach [name]: its proper prefixes
    that end just before a ['/'], outermost first. *)
Fixpoint parents_from (walked name : string) : list string :=
  match name with
  | EmptyString => []
  | String c rest =>
      if decide (c = "/"%char)
      then (if decide (walked = EmptyString) then [] else [walked])
           ++ parents_from (walked +:+ String c EmptyString) rest
      else parents_from (walked +:+ String c EmptyString) rest
  end.

Definition parents (name : string) : list string :=
  parents_from EmptyString name.

(** Walking through directories: the first one that is missing, is not a
    directory or cannot be searched stops the walk with its error. *)
Fixpoint walk (table : gmap string node) (directories : list string)
    : option os_error :=
  match directories with
  | [] => None
  | directory :: directories' =>
      match table !! directory with
      | None => Some FileNotFoundError
      | Some (RegularFile _ _ _) => Some NotADirectoryError
      | Some (Directory searchable _) =>
          if searchable then walk table directories'
          else Some PermissionError
      end
  end.

(** What [open(path, 'r')] followed by [f.read()] gives in a world. *)
Definition read_outcome (w : world) (path : string) : result string :=
  let name := resolve w path in
  match walk (files w) (parents name) with
  | Some error => Raise error
  | None =>
      match files w !! name with
      | None => Raise FileNotFoundError
      | Some (Directory _ _) => Raise IsADirectoryError
      | Some (RegularFile readable _ data) =>
          if readable
          then if decodable w data then Ok (universal_newlines data)
               else Raise UnicodeDecodeError
          else Raise PermissionError
      end
  end.

(** [with open(path, 'r') as f: content = f.read()]. *)
Definition read_text (path : string) : io string := λ w,
  (read_outcome w path, log (OpenRead path) w).

(** What [open(path, 'w')] gives in a world: the permissions of the file
    opened, which is the existing file when it can be written, and a new
    file when there is none and its directory can be written. *)
Definition open_write_outcome (w : world) (path : string)
    : result (bool * bool) :=
  let name := resolve w path in
  match walk (files w) (parents name) with
  | Some error => Raise error
  | None =>
      match files w !! name with
      | None =>
          match last (parents name) with
          | None => Ok (true, true)
          | Some directory =>
              match files w !! directory with
              | Some (Directory _ true) => Ok (true, true)
              | _ => Raise PermissionError
              end
          end
      | Some (Directory _ _) => Raise IsADirectoryError
      | Some (RegularFile readable writable _) =>
          if writable then Ok (readable, writable)
          else Raise PermissionError
      end
  end.

(** [with open(path, 'w') as f: f.write(data)]: the file opened is emptied
    and then holds [data]. *)
Definition write_text (path data : string) : io unit := λ w,
  let w' := log (OpenWrite path) w in
  match open_write_outcome w path with
  | Raise error => (Raise error, w')
  | Ok (readable, writable) =>
      (Ok (), log (WriteData path data)
                (store (resolve w path) (RegularFile readable writable data) w'))
  end.

(** [print(message)]: the message is encoded for standard output as a
    whole, so a message that cannot be encoded prints nothing. *)
Definition print (message : string) : io unit := λ w,
  if stdout_accepts w message
  then (Ok (), log (PrintLine message) w)
  else (Raise UnicodeEncodeError, w).


(** The calls that change a file. *)
Definition is_write (call : syscall) : bool :=
  match call with
  | OpenWrite _ | WriteData _ _ => true
  | OpenRead _ | PrintLine _ | Traceback _ => false
  end.

End OS.

(** ** The script *)

Module Fix.
Import OS.

Definition files_to_remove : list string :=
  [ "PDFViewWrapper.swift";
    "PDFDrawerContainer.swift";
    "RightSideDrawerView.swift";
    "PDFFormFieldsView.swift";
    "PDFManager.swift";
    "SamplePDFTestView.swift";
    "PDFDrawerExampleView.swift" ].

Definition exception_marker : string := "PDFDrawerComponents.swift".

Definition project_path : string := "XCAChatGPT.xcodeproj/project.pbxproj".

(** The inner loop [for filename in files_to_remove], entered with
    [should_keep] as set before it; a hit sets [should_keep = False] and
    breaks. *)
Fixpoint scan_filenames
    (filenames : list string) (line : string) (should_keep : bool) : bool :=
  match filenames with
  | [] => should_keep
  | filename :: filenames' =>
      if Str.contains filename line
         && negb (Str.contains exception_marker line)
      then false
      else scan_filenames filenames' line should_keep
  end.

(** Value of [should_keep] after the inner loop. *)
Definition should_keep (line : string) : bool :=
  scan_filenames files_to_remove line true.

(** The outer loop [for line in lines], threading the list
    [filtered_lines] that [append] grows at its end. *)
Fixpoint filter_loop
    (lines : list string) (filtered_lines : list string) : list string :=
  match lines with
  | [] => filtered_lines
  | line :: lines' =>
      if should_keep line
      then filter_loop lines' (filtered_lines ++ [line])
      else filter_loop lines' filtered_lines
  end.

(** [filtered_lines] once the loop is over, starting from the empty list. *)
Definition filtered_lines (lines : list string) : list string :=
  filter_loop lines [].

(** The text handed to [f.write] for a file whose text is [content]. *)
Definition rewritten (content : string) : string :=
  Str.join (filtered_lines (Str.split content)).

Definition success_message : string :=
  "✅ Removed references to deleted files from Xcode project".

Definition next_step_message : string :=
  "Now run: Clean Build Folder (Cmd+Shift+K) and Build (Cmd+B)".

(** The whole script. *)
Definition main : io unit :=
  content ← read_text project_path;
  let lines := Str.split content in
  let filtered := filtered_lines lines in
  _ ← write_text project_path (Str.join filtered);
  _ ← print success_message;
  print next_step_message.

(** A line mentions a deleted file and not the exception marker. *)
Definition removable (line : string) : Prop :=
  ∃ filename, filename ∈ files_to_remove
              ∧ Str.occurs_in filename line
              ∧ ¬ Str.occurs_in exception_marker line.

(** The directory that holds the project file. *)
Definition project_directory : string := "XCAChatGPT.xcodeproj".

(** A world without links that holds the project directory and, in it,
    the node [n] under the project path. *)
Definition project_world (n : node) : world :=
  plain_world (<[project_path := n]> {[ project_directory := Directory true true ]}).


(** A text ends in a newline character. *)
Definition ends_with_newline (content : string) : Prop :=
  ∃ before, content = before +:+ String Str.nl EmptyString.

End Fix.

(** ** Facts about the string primitives *)

Module StrFacts.
Import Str.

(** Let [simpl] compute concatenations inside this module. *)
#[local] Arguments String.append !_ _ / : simpl nomatch.

Lemma str_app_empty_r s : s +:+ EmptyString = s.
Proof. induction s as [|c s IH]; simpl; [done | by rewrite IH]. Qed.

Lemma str_app_assoc s t u : (s +:+ t) +:+ u = s +:+ t +:+ u.
Proof. induction s as [|c s IH]; simpl; [done | by rewrite IH]. Qed.

Lemma starts_with_spec needle hay :
  starts_with needle hay = true ↔ ∃ after, hay = needle +:+ after.
Proof.
  revert hay. induction needle as [|a needle IH]; intros hay; simpl.
  - split; [intros _; by exists hay | done].
  - destruct hay as [|b hay].
    + split; [done | intros [after Hafter]; discriminate].
    + destruct (decide (a = b)) as [->|Hne].
      * rewrite IH. split; intros [after Hafter]; exists after; congruence.
      * split; [done | intros [after Hafter]; congruence].
Qed.

Lemma contains_spec needle hay :
  contains needle hay = true ↔ occurs_in needle hay.
Proof.
  unfold occurs_in. induction hay as [|b hay IH].
  - simpl. destruct (starts_with needle EmptyString) eqn:Hsw.
    + apply starts_with_spec in Hsw as [after Hafter].
      split; [intros _; by exists EmptyString, after | done].
    + split; [done |]. intros ([|c before] & after & Heq); [|discriminate].
      simpl in Heq. assert (starts_with needle EmptyString = true) as Hsw'
        by (apply starts_with_spec; eauto). congruence.
  - cbn [contains]. destruct (starts_with needle (String b hay)) eqn:Hsw.
    + apply starts_with_spec in Hsw as [after Hafter].
      split; [intros _; by exists EmptyString, after | done].
    + rewrite IH. split.
      * intros (before & after & ->). by exists (String b before), after.
      * intros ([|c before] & after & Heq); simpl in Heq.
        -- assert (starts_with needle (String b hay) = true) as Hsw'
             by (apply starts_with_spec; eauto). congruence.
        -- injection Heq as _ ->. eauto.
Qed.

Lemma contains_false needle hay :
  contains needle hay = false ↔ ¬ occurs_in needle hay.
Proof.
  rewrite <-contains_spec. destruct (contains needle hay); naive_solver.
Qed.

Lemma split_nonempty content : split content ≠ [].
Proof.
  destruct content as [|c rest]; simpl; [done |].
  destruct (decide (c = nl)); [done |]. by destruct (split rest).
Qed.

(** Splitting and joining again gives the text back. *)
Lemma join_split content : join (split content) = content.
Proof.
  induction content as [|c rest IH]; simpl; [done |].
  destruct (decide (c = nl)) as [->|Hc].
  - pose proof (split_nonempty rest).
    destruct (split rest) as [|piece pieces] eqn:Hs; [done |].
    simpl in *. by rewrite IH.
  - destruct (split rest) as [|piece pieces] eqn:Hs.
    + by destruct (split_nonempty rest).
    + destruct pieces as [|piece' pieces]; simpl in *; by rewrite <-IH.
Qed.

Lemma split_newline_free content :
  Forall newline_free (split content).
Proof.
  induction content as [|c rest IH]; simpl.
  - by repeat constructor.
  - destruct (decide (c = nl)) as [->|Hc].
    + by constructor.
    + destruct (split rest) as [|piece pieces].
      * by repeat constructor.
      * inversion_clear IH. by repeat constructor.
Qed.

Lemma split_app_newline_free piece rest :
  newline_free piece →
  split (piece +:+ String nl rest) = piece :: split rest.
Proof.
  induction piece as [|c piece IH]; simpl.
  - intros _. by destruct (decide (nl = nl)).
  - intros [Hc Hpiece]. destruct (decide (c = nl)); [done |].
    by rewrite IH.
Qed.

Lemma split_newline_free_single piece :
  newline_free piece → split piece = [piece].
Proof.
  induction piece as [|c piece IH]; simpl; [done |].
  intros [Hc Hpiece]. destruct (decide (c = nl)); [done |]. by rewrite IH.
Qed.

(** Joining newline-free pieces and splitting again gives the pieces
    back, as long as there is at least one piece. *)
Lemma split_join pieces :
  pieces ≠ [] → Forall newline_free pieces → split (join pieces) = pieces.
Proof.
  induction pieces as [|piece pieces IH]; [done |].
  intros _ Hfree. inversion_clear Hfree as [|?? Hpiece Hpieces].
  destruct pieces as [|piece' pieces].
  - by apply split_newline_free_single.
  - cbn [join]. rewrite split_app_newline_free by done.
    f_equal. by apply IH.
Qed.

(** A text that ends in a newline splits into the pieces of the text
    before it followed by one empty piece. *)
Lemma split_snoc_newline content :
  split (content +:+ String nl EmptyString) = split content ++ [EmptyString].
Proof.
  induction content as [|c rest IH]; simpl.
  - by destruct (decide (nl = nl)).
  - destruct (decide (c = nl)); rewrite IH; [done |].
    pose proof (split_nonempty rest). by destruct (split rest).
Qed.

Lemma join_snoc_empty pieces :
  pieces ≠ [] →
  join (pieces ++ [EmptyString]) = join pieces +:+ String nl EmptyString.
Proof.
  induction pieces as [|piece pieces IH]; [done |]. intros _.
  destruct pieces as [|piece' pieces]; [done |].
  change (join ((piece :: piece' :: pieces) ++ [EmptyString]))
    with (piece +:+ String nl (join ((piece' :: pieces) ++ [EmptyString]))).
  rewrite IH by done. cbn [join]. by rewrite str_app_assoc.
Qed.

End StrFacts.

(** ** Facts about the two loops *)

Section Loops.
Import Str StrFacts OS Fix.

(** Entered with [True], the inner loop leaves [True] exactly when no file
    name of the list hits. *)
Lemma scan_filenames_true filenames line :
  scan_filenames filenames line true = true ↔
  Forall (λ filename,
            contains filename line && negb (contains exception_marker line)
            = false) filenames.
Proof.
  induction filenames as [|filename filenames IH]; simpl.
  - split; [by constructor | done].
  - rewrite Forall_cons, <-IH.
    destruct (contains filename line && negb (contains exception_marker line)).
    + split; [done | by intros [? _]].
    + split; [by split | by intros [_ ?]].
Qed.

Lemma should_keep_true line :
  should_keep line = true ↔
  occurs_in exception_marker line
  ∨ ∀ filename, filename ∈ files_to_remove → ¬ occurs_in filename line.
Proof.
  unfold should_keep. rewrite scan_filenames_true, Forall_forall.
  destruct (contains exception_marker line) eqn:Hmarker.
  - apply contains_spec in Hmarker. split; [by left |].
    intros _ filename _. by rewrite andb_false_r.
  - apply contains_false in Hmarker. split.
    + intros Hall. right. intros filename Hin. apply contains_false.
      specialize (Hall filename Hin). by rewrite andb_true_r in Hall.
    + intros [Hyes | Hnone]; [done |]. intros filename Hin.
      rewrite andb_true_r. apply contains_false. by apply Hnone.
Qed.

Lemma should_keep_false line : should_keep line = false ↔ removable line.
Proof.
  unfold removable. split.
  - intros Hdrop.
    destruct (contains exception_marker line) eqn:Hmarker.
    + assert (should_keep line = true) as Hkeep; [| congruence].
      apply should_keep_true. left. by apply contains_spec.
    + apply contains_false in Hmarker.
      destruct (decide (Exists (λ filename, contains filename line = true)
                          files_to_remove)) as [Hex | Hnex].
      * apply Exists_exists in Hex as (filename & Hin & Hhit).
        exists filename. by rewrite <-contains_spec.
      * assert (should_keep line = true) as Hkeep; [| congruence].
        apply should_keep_true. right. intros filename Hin Hocc.
        apply Hnex, Exists_exists. exists filename.
        by rewrite contains_spec.
  - intros (filename & Hin & Hocc & Hmarker).
    destruct (should_keep line) eqn:Hkeep; [| done].
    apply should_keep_true in Hkeep as [Hyes | Hnone]; [done |].
    by destruct (Hnone filename Hin).
Qed.

(** The outer loop appends the kept lines, in order, to what it was given. *)
Lemma filter_loop_filter lines acc :
  filter_loop lines acc = acc ++ filter (λ line, should_keep line = true) lines.
Proof.
  revert acc. induction lines as [|line lines IH]; intros acc; simpl.
  - by rewrite app_nil_r.
  - destruct (should_keep line) eqn:Hkeep.
    + rewrite IH, filter_cons_True by done. by rewrite <-app_assoc.
    + rewrite IH, filter_cons_False by congruence. done.
Qed.

Lemma filtered_lines_filter lines :
  filtered_lines lines = filter (λ line, should_keep line = true) lines.
Proof. unfold filtered_lines. by rewrite filter_loop_filter. Qed.

Lemma filtered_lines_app lines1 lines2 :
  filtered_lines (lines1 ++ lines2)
  = filtered_lines lines1 ++ filtered_lines lines2.
Proof. rewrite !filtered_lines_filter. apply filter_app. Qed.

Lemma filtered_lines_all_kept lines :
  Forall (λ line, should_keep line = true) lines →
  filtered_lines lines = lines.
Proof.
  rewrite filtered_lines_filter. induction 1 as [|line lines Hkeep _ IH]; [done |].
  by rewrite filter_cons_True, IH.
Qed.

Lemma filtered_lines_kept lines :
  Forall (λ line, should_keep line = true) (filtered_lines lines).
Proof.
  rewrite filtered_lines_filter. apply Forall_forall. intros line Hin.
  by apply list_elem_of_filter in Hin as [Hkeep _].
Qed.

Lemma filtered_lines_idem lines :
  filtered_lines (filtered_lines lines) = filtered_lines lines.
Proof. apply filtered_lines_all_kept, filtered_lines_kept. Qed.

Lemma filtered_lines_sublist lines : filtered_lines lines `sublist_of` lines.
Proof. rewrite filtered_lines_filter. apply sublist_filter. Qed.

Lemma filtered_lines_newline_free lines :
  Forall newline_free lines → Forall newline_free (filtered_lines lines).
Proof.
  rewrite !Forall_forall. intros Hfree line Hin. apply Hfree.
  by apply (sublist_subseteq _ _ (filtered_lines_sublist lines)).
Qed.

Lemma rewritten_idem content : rewritten (rewritten content) = rewritten content.
Proof.
  unfold rewritten.
  destruct (filtered_lines (split content)) as [|line kept] eqn:Hkept.
  - reflexivity.
  - rewrite split_join.
    + by rewrite <-Hkept, filtered_lines_idem.
    + done.
    + rewrite <-Hkept. apply filtered_lines_newline_free, split_newline_free.
Qed.

End Loops.

(** ** Facts about a run of the script *)

Section Run.
Import Str StrFacts OS Fix.

(** Text mode leaves a text without carriage return as it is, and what it
    returns holds no carriage return. *)
Lemma universal_newlines_cr_free data :
  cr_free data → universal_newlines data = data.
Proof.
  induction data as [|c data IH]; simpl; [done |].
  intros [Hc Hdata]. destruct (decide (c = cr)); [done |]. by rewrite IH.
Qed.

Lemma cr_free_universal_newlines_cons data :
  cr_free (universal_newlines data)
  ∧ ∀ c, cr_free (universal_newlines (String c data)).
Proof.
  assert (nl ≠ cr) as Hnl by done.
  induction data as [|c' rest [IH1 IH2]].
  - split; [done |]. intros c. simpl. by destruct (decide (c = cr)).
  - split; [apply IH2 |]. intros c.
    change (universal_newlines (String c (String c' rest)))
      with (if decide (c = cr)
            then String nl (if decide (c' = nl) then universal_newlines rest
                            else universal_newlines (String c' rest))
            else String c (universal_newlines (String c' rest))).
    destruct (decide (c = cr)); [| by split].
    split; [done |]. by destruct (decide (c' = nl)).
Qed.

Lemma cr_free_universal_newlines data : cr_free (universal_newlines data).
Proof. apply cr_free_universal_newlines_cons. Qed.

Lemma cr_free_app s t : cr_free (s +:+ t) ↔ cr_free s ∧ cr_free t.
Proof.
  induction s as [|c s IH]; simpl; [tauto |]. rewrite IH. tauto.
Qed.

Lemma cr_free_split content : cr_free content → Forall cr_free (split content).
Proof.
  induction content as [|c rest IH]; simpl.
  - by repeat constructor.
  - intros [Hc Hrest]. specialize (IH Hrest).
    destruct (decide (c = nl)); [by constructor |].
    destruct (split rest) as [|piece pieces]; [by repeat constructor |].
    inversion_clear IH. by repeat constructor.
Qed.

Lemma cr_free_join pieces : Forall cr_free pieces → cr_free (join pieces).
Proof.
  induction 1 as [|piece pieces Hpiece Hpieces IH]; [done |].
  destruct pieces as [|piece' pieces]; [done |].
  cbn [join]. apply cr_free_app. split; [done |]. split; [done | exact IH].
Qed.

Lemma cr_free_rewritten content : cr_free content → cr_free (rewritten content).
Proof.
  intros Hfree. apply cr_free_join. apply Forall_forall. intros line Hin.
  apply (sublist_subseteq _ _ (filtered_lines_sublist _)) in Hin.
  pose proof (cr_free_split content Hfree) as Hall.
  rewrite Forall_forall in Hall. by apply Hall.
Qed.

(** The script, with the sequencing of its four calls spelled out. *)
Lemma main_unfold w :
  main w =
  match read_text project_path w with
  | (Ok content, w1) =>
      match write_text project_path (rewritten content) w1 with
      | (Ok _, w2) =>
          match print success_message w2 with
          | (Ok _, w3) => print next_step_message w3
          | (Raise error, w3) => (Raise error, w3)
          end
      | (Raise error, w2) => (Raise error, w2)
      end
  | (Raise error, w1) => (Raise error, w1)
  end.
Proof.
  unfold main, mbind, io_mbind, io_bind, rewritten.
  destruct (read_text project_path w) as [[content | error] w1]; [| done].
  destruct (write_text project_path _ w1) as [[[] | error] w2]; [| done].
  by destruct (print success_message w2) as [[[] | error] w3].
Qed.

(** What a read that returns tells about the world. *)
Lemma read_outcome_ok w path content :
  read_outcome w path = Ok content →
  ∃ writable data,
    walk (files w) (parents (resolve w path)) = None
    ∧ files w !! resolve w path = Some (RegularFile true writable data)
    ∧ decodable w data = true
    ∧ content = universal_newlines data.
Proof.
  unfold read_outcome.
  destruct (walk (files w) (parents (resolve w path))); [done |].
  destruct (files w !! resolve w path) as [[[] writable data | ? ?] |];
    try done.
  destruct (decodable w data) eqn:Hdec; [| done].
  intros [= <-]. by exists writable, data.
Qed.

(** Replacing the data of a regular file changes no walk. *)
Lemma walk_store_data table name readable writable data data' directories :
  table !! name = Some (RegularFile readable writable data) →
  walk (<[name := RegularFile readable writable data']> table) directories
  = walk table directories.
Proof.
  intros Hnode. induction directories as [|directory directories IH]; [done |].
  simpl. destruct (decide (name = directory)) as [<- | Hne].
  - by rewrite lookup_insert_eq, Hnode.
  - rewrite lookup_insert_ne by done. rewrite IH. done.
Qed.

(** How a run ends. *)
Lemma main_result w :
  (main w).1 =
  match read_outcome w project_path with
  | Raise error => Raise error
  | Ok _ =>
      match open_write_outcome w project_path with
      | Raise error => Raise error
      | Ok _ =>
          if stdout_accepts w success_message && stdout_accepts w next_step_message
          then Ok () else Raise UnicodeEncodeError
      end
  end.
Proof.
  rewrite main_unfold. unfold read_text, write_text, print. simpl.
  destruct (read_outcome w project_path) as [content | error]; [| done].
  change (open_write_outcome (log (OpenRead project_path) w) project_path)
    with (open_write_outcome w project_path).
  destruct (open_write_outcome w project_path) as [[r wr] | error]; [| done].
  simpl. destruct (stdout_accepts w success_message); [| done]. simpl.
  by destruct (stdout_accepts w next_step_message).
Qed.

(** The files a run leaves behind. *)
Lemma main_files w :
  files (main w).2 =
  match read_outcome w project_path, open_write_outcome w project_path with
  | Ok content, Ok (readable, writable) =>
      <[resolve w project_path :=
          RegularFile readable writable (rewritten content)]> (files w)
  | _, _ => files w
  end.
Proof.
  rewrite main_unfold. unfold read_text, write_text, print. simpl.
  destruct (read_outcome w project_path) as [content | error]; [| done].
  change (open_write_outcome (log (OpenRead project_path) w) project_path)
    with (open_write_outcome w project_path).
  destruct (open_write_outcome w project_path) as [[r wr] | error]; [| done].
  simpl. destruct (stdout_accepts w success_message); [| done]. simpl.
  by destruct (stdout_accepts w next_step_message).
Qed.

(** The calls a run makes. *)
Lemma main_trace w :
  trace (main w).2 =
  trace w ++
  match read_outcome w project_path, open_write_outcome w project_path with
  | Ok content, Ok _ =>
      [ OpenRead project_path; OpenWrite project_path;
        WriteData project_path (rewritten content) ]
      ++ (if stdout_accepts w success_message
          then PrintLine success_message
               :: (if stdout_accepts w next_step_message
                   then [PrintLine next_step_message] else [])
          else [])
  | Ok _, Raise _ => [ OpenRead project_path; OpenWrite project_path ]
  | Raise _, _ => [ OpenRead project_path ]
  end.
Proof.
  rewrite main_unfold. unfold read_text, write_text, print. simpl.
  destruct (read_outcome w project_path) as [content | error]; [| done].
  change (open_write_outcome (log (OpenRead project_path) w) project_path)
    with (open_write_outcome w project_path).
  destruct (open_write_outcome w project_path) as [[r wr] | error]; simpl;
    [| by rewrite <-app_assoc].
  destruct (stdout_accepts w success_message); simpl;
    [destruct (stdout_accepts w next_step_message) |]; simpl;
    by rewrite <-!app_assoc.
Qed.

(** A run changes nothing of the machine but its files and its trace. *)
Lemma main_machine w :
  resolve (main w).2 = resolve w
  ∧ decodable (main w).2 = decodable w
  ∧ stdout_accepts (main w).2 = stdout_accepts w.
Proof.
  rewrite main_unfold. unfold read_text, write_text, print. simpl.
  destruct (read_outcome w project_path) as [content | error]; [| done].
  destruct (open_write_outcome _ project_path) as [[r wr] | error]; [| done].
  simpl. destruct (stdout_accepts w success_message); [| done]. simpl.
  by destruct (stdout_accepts w next_step_message).
Qed.

Lemma read_text_result w :
  (read_text project_path w).1 = read_outcome w project_path.
Proof. reflexivity. Qed.

(** After a run that wrote the file, a second run writes the same text. *)
Lemma main_files_twice w : files (main (main w).2).2 = files (main w).2.
Proof.
  rewrite (main_files (main w).2).
  destruct (main_machine w) as (Hresolve & Hdecodable & _).
  unfold read_outcome at 1, open_write_outcome at 1.
  rewrite Hresolve, Hdecodable, (main_files w).
  destruct (read_outcome w project_path) as [content | error] eqn:Hread.
  - apply read_outcome_ok in Hread as (writable & data & Hwalk & Hnode & _ & ->).
    unfold open_write_outcome. rewrite Hwalk, Hnode.
    destruct writable.
    + rewrite (walk_store_data _ _ _ _ data) by done.
      rewrite Hwalk, lookup_insert_eq.
      destruct (decodable w (rewritten (universal_newlines data))); [| done].
      rewrite universal_newlines_cr_free
        by apply cr_free_rewritten, cr_free_universal_newlines.
      by rewrite insert_insert_eq, rewritten_idem.
    + rewrite Hwalk, Hnode.
      by destruct (decodable w data).
  - unfold read_outcome in Hread.
    destruct (walk (files w) (parents (resolve w project_path))); [done |].
    destruct (files w !! resolve w project_path) as [[[] wr data | ? ?] |];
      try done.
    by destruct (decodable w data).
Qed.

End Run.

(** ** The properties of the specification *)

Section Properties.
Import Str StrFacts OS Fix.

(** C1. The filter keeps a line if and only if the line contains the
    exception marker [PDFDrawerComponents.swift] or contains none of the
    seven exclusion substrings: the lines of the output are exactly the
    lines of the input for which this holds, so every output line contains
    the marker or contains no exclusion substring. *)
Theorem filter_keeps_marked_or_clean (lines : list string) :
  (∀ line, should_keep line = true ↔
           occurs_in exception_marker line
           ∨ ∀ filename, filename ∈ files_to_remove → ¬ occurs_in filename line)
  ∧ filtered_lines lines = filter (λ line, should_keep line = true) lines
  ∧ (∀ line, line ∈ filtered_lines lines ↔
             line ∈ lines
             ∧ (occurs_in exception_marker line
                ∨ ∀ filename, filename ∈ files_to_remove
                              → ¬ occurs_in filename line))
  ∧ exception_marker = "PDFDrawerComponents.swift"
  ∧ length files_to_remove = 7.
Proof.
  split; [apply should_keep_true |].
  split; [apply filtered_lines_filter |].
  split; [| done].
  intros line. rewrite filtered_lines_filter, list_elem_of_filter.
  rewrite should_keep_true. tauto.
Qed.

(** C2. The filter is idempotent: filtering the filtered lines changes
    nothing, rewriting a rewritten text changes nothing, and a second run
    of the script leaves the files as the first run left them. *)
Theorem filter_idempotent (lines : list string) (content : string) (w : world) :
  filtered_lines (filtered_lines lines) = filtered_lines lines
  ∧ rewritten (rewritten content) = rewritten content
  ∧ files (main (main w).2).2 = files (main w).2.
Proof.
  split; [apply filtered_lines_idem |].
  split; [apply rewritten_idem |].
  apply main_files_twice.
Qed.

(** C3. The output lines are a subsequence of the input lines: they can be
    obtained from the input by deleting lines, so every output line is an
    input line, unchanged, and the kept lines keep their relative order. *)
Theorem output_is_subsequence (lines : list string) :
  filtered_lines lines `sublist_of` lines
  ∧ ∀ line, line ∈ filtered_lines lines → line ∈ lines.
Proof.
  split; [apply filtered_lines_sublist |].
  intros line. apply (sublist_subseteq _ _ (filtered_lines_sublist lines)).
Qed.

(** C4, as stated, fails: a file none of whose lines mentions a deleted
    file is not always written back byte for byte.  Reading in text mode
    turns the line ending ['\r\n'] into ['\n'], so the file ["a\r\nb"] is
    written back as ["a\nb"]. *)
Lemma crlf_file_not_rewritten_identically :
  (∀ line, line ∈ split (String "a" (String cr (String nl "b"))) →
           ¬ removable line)
  ∧ (main (project_world
             (RegularFile true true (String "a" (String cr (String nl "b")))))).1
    = Ok ()
  ∧ files (main (project_world
             (RegularFile true true (String "a" (String cr (String nl "b")))))).2
      !! project_path
    = Some (RegularFile true true (String "a" (String nl "b")))
  ∧ String "a" (String nl "b") ≠ String "a" (String cr (String nl "b")).
Proof.
  split.
  { intros line Hin Hrem. apply should_keep_false in Hrem. vm_compute in Hin.
    repeat (apply elem_of_cons in Hin as [-> | Hin];
            [vm_compute in Hrem; discriminate |]).
    by apply elem_of_nil in Hin. }
  split; [by vm_compute |]. split; [| done].
  rewrite main_files. by vm_compute.
Qed.

(** C4, amended.  When no line of the text mentions a deleted file without
    the exception marker, the text written back is the text read:
    splitting on newlines and joining with newlines gives the text back.
    The bytes of the file are left as they were when, in addition, they
    hold no carriage return, which reading in text mode would turn into a
    newline. *)
Theorem clean_file_rewritten_identically (content : string) :
  (∀ line, line ∈ split content → ¬ removable line) →
  join (split content) = content
  ∧ rewritten content = content
  ∧ ∀ w readable writable,
      files w !! resolve w project_path
      = Some (RegularFile readable writable content) →
      cr_free content →
      files (main w).2 = files w.
Proof.
  intros Hclean. split; [apply join_split |].
  assert (rewritten content = content) as Hsame.
  { unfold rewritten. rewrite filtered_lines_all_kept; [apply join_split |].
    apply Forall_forall. intros line Hin.
    destruct (should_keep line) eqn:Hkeep; [done |].
    apply should_keep_false in Hkeep. by destruct (Hclean line Hin). }
  split; [done |]. intros w readable writable Hnode Hfree.
  rewrite main_files.
  destruct (read_outcome w project_path) as [content' | error] eqn:Hread;
    [| done].
  apply read_outcome_ok in Hread as (wr & data & Hwalk & Hnode' & _ & ->).
  rewrite Hnode in Hnode'. injection Hnode' as -> <- <-.
  unfold open_write_outcome. rewrite Hwalk, Hnode.
  destruct writable; [| done].
  rewrite universal_newlines_cr_free, Hsame by done. by apply insert_id.
Qed.

Lemma clean_file_rewritten_identically_witness :
  (∀ line, line ∈ split "main.swift" → ¬ removable line)
  ∧ join (split "main.swift") = "main.swift"
  ∧ rewritten "main.swift" = "main.swift"
  ∧ ∀ w readable writable,
      files w !! resolve w project_path
      = Some (RegularFile readable writable "main.swift") →
      cr_free "main.swift" →
      files (main w).2 = files w.
Proof.
  assert (∀ line, line ∈ split "main.swift" → ¬ removable line) as Hclean.
  { intros line Hin Hrem. apply should_keep_false in Hrem.
    apply list_elem_of_singleton in Hin as ->. vm_compute in Hrem. discriminate. }
  split; [exact Hclean |].
  exact (clean_file_rewritten_identically "main.swift" Hclean).
Defined.

(** C5. The scenarios of the specification: the line
    [PDFViewWrapper.swift] is dropped; the line
    [PDFDrawerContainer.swift, PDFDrawerComponents.swift], which holds a
    deleted file and the exception marker, is kept as it is; the line
    [main.swift], which matches nothing, is kept as it is. *)
Theorem specification_scenarios :
  filtered_lines ["PDFViewWrapper.swift"] = []
  ∧ filtered_lines ["PDFDrawerContainer.swift, PDFDrawerComponents.swift"]
    = ["PDFDrawerContainer.swift, PDFDrawerComponents.swift"]
  ∧ filtered_lines ["main.swift"] = ["main.swift"]
  ∧ filtered_lines
      [ "PDFViewWrapper.swift";
        "PDFDrawerContainer.swift, PDFDrawerComponents.swift";
        "main.swift" ]
    = [ "PDFDrawerContainer.swift, PDFDrawerComponents.swift"; "main.swift" ].
Proof. repeat split; vm_compute; reflexivity. Qed.

(** C6. If reading the project file fails, the run ends with that error,
    the files are left as they were, and the only call the run makes is the
    attempt to open the file for reading: none of its calls is a write. *)
Theorem read_failure_leaves_file (w : world) (error : os_error) :
  (read_text project_path w).1 = Raise error →
  (main w).1 = Raise error
  ∧ files (main w).2 = files w
  ∧ trace (main w).2 = trace w ++ [OpenRead project_path]
  ∧ Forall (λ call, is_write call = false)
      (drop (length (trace w)) (trace (main w).2)).
Proof.
  rewrite read_text_result, main_result, main_files, main_trace.
  rewrite drop_app_length. intros ->.
  repeat split; by repeat constructor.
Qed.

Lemma read_failure_leaves_file_witness :
  (read_text project_path (plain_world ∅)).1 = Raise FileNotFoundError
  ∧ (main (plain_world ∅)).1 = Raise FileNotFoundError
  ∧ files (main (plain_world ∅)).2 = files (plain_world ∅)
  ∧ trace (main (plain_world ∅)).2
    = trace (plain_world ∅) ++ [OpenRead project_path]
  ∧ Forall (λ call, is_write call = false)
      (drop (length (trace (plain_world ∅))) (trace (main (plain_world ∅)).2)).
Proof.
  split; [reflexivity |].
  apply (read_failure_leaves_file (plain_world ∅) FileNotFoundError).
  reflexivity.
Defined.



(** C8. The output never has more lines than the input. *)
Theorem output_no_longer_than_input (lines : list string) :
  length (filtered_lines lines) ≤ length lines.
Proof. rewrite filtered_lines_filter. apply length_filter. Qed.

(** C9, as stated, fails: a text that ends in a newline can be rewritten to
    a text that does not.  The file whose only line names a deleted file is
    rewritten to the empty text. *)
Lemma trailing_newline_lost :
  ends_with_newline ("PDFViewWrapper.swift" +:+ String nl "")
  ∧ rewritten ("PDFViewWrapper.swift" +:+ String nl "") = ""
  ∧ ¬ ends_with_newline (rewritten ("PDFViewWrapper.swift" +:+ String nl "")).
Proof.
  split; [by exists "PDFViewWrapper.swift" |].
  split; [reflexivity |].
  intros [[|c before] Hends]; vm_compute in Hends; discriminate.
Qed.

(** C9, amended.  An empty line is always kept.  For a text that ends in a
    newline, if at least one line before that final newline is kept, the
    final newline is preserved: the empty line that the split yields after
    it survives the filter, and the output is the rewritten text before the
    newline followed by a newline. *)
Theorem trailing_newline_kept_with_a_line (before : string) :
  filtered_lines (split before) ≠ [] →
  should_keep "" = true
  ∧ filtered_lines (split (before +:+ String nl ""))
    = filtered_lines (split before) ++ [""]
  ∧ rewritten (before +:+ String nl "") = rewritten before +:+ String nl ""
  ∧ ends_with_newline (rewritten (before +:+ String nl "")).
Proof.
  intros Hkept. split; [reflexivity |].
  unfold rewritten. rewrite split_snoc_newline, filtered_lines_app.
  change (filtered_lines [""]) with [""].
  split; [done |]. rewrite join_snoc_empty by done.
  split; [done |]. by eexists.
Qed.

Lemma trailing_newline_kept_with_a_line_witness :
  filtered_lines (split "main.swift") ≠ []
  ∧ should_keep "" = true
  ∧ filtered_lines (split ("main.swift" +:+ String nl ""))
    = filtered_lines (split "main.swift") ++ [""]
  ∧ rewritten ("main.swift" +:+ String nl "")
    = rewritten "main.swift" +:+ String nl ""
  ∧ ends_with_newline (rewritten ("main.swift" +:+ String nl "")).
Proof.
  assert (filtered_lines (split "main.swift") ≠ []) as Hkept
    by (vm_compute; discriminate).
  split; [exact Hkept |].
  exact (trailing_newline_kept_with_a_line "main.swift" Hkept).
Defined.

(** C10. Whether a line is kept depends on that line alone, so the filter
    distributes over concatenation of line sequences; the filtered lines
    are a function of the lines given. *)
Theorem filter_distributes_over_concatenation (lines1 lines2 : list string) :
  filtered_lines (lines1 ++ lines2)
  = filtered_lines lines1 ++ filtered_lines lines2
  ∧ filtered_lines lines1 = filter (λ line, should_keep line = true) lines1.
Proof. split; [apply filtered_lines_app | apply filtered_lines_filter]. Qed.

End Properties.

(** ** More facts about splitting and joining *)

Module TextFacts.
Import Str StrFacts.

#[local] Arguments String.append !_ _ / : simpl nomatch.

Lemma str_length_app s t :
  String.length (s +:+ t) = String.length s + String.length t.
Proof. induction s as [|c s IH]; simpl; [done | by rewrite IH]. Qed.

(** A newline in the middle of a text separates the lines before it from
    the lines after it. *)
Lemma split_app_newline before after :
  split (before +:+ String nl after) = split before ++ split after.
Proof.
  induction before as [|c before IH]; simpl.
  - by destruct (decide (nl = nl)).
  - destruct (decide (c = nl)); rewrite IH; [done |].
    pose proof (split_nonempty before). by destruct (split before).
Qed.

Lemma join_app pieces1 pieces2 :
  pieces1 ≠ [] → pieces2 ≠ [] →
  join (pieces1 ++ pieces2) = join pieces1 +:+ String nl (join pieces2).
Proof.
  intros Hne1 Hne2. induction pieces1 as [|piece pieces1 IH]; [done |].
  destruct pieces1 as [|piece' pieces1].
  - destruct pieces2; [done |]. reflexivity.
  - change (join ((piece :: piece' :: pieces1) ++ pieces2))
      with (piece +:+ String nl (join ((piece' :: pieces1) ++ pieces2))).
    rewrite IH by done. cbn [join]. by rewrite str_app_assoc.
Qed.

Lemma join_cons_length piece pieces :
  String.length (join pieces) ≤ String.length (join (piece :: pieces))
  ∧ String.length piece ≤ String.length (join (piece :: pieces)).
Proof.
  destruct pieces as [|piece' pieces]; [simpl; lia |].
  cbn [join]. rewrite str_length_app. cbn [String.length]. lia.
Qed.

(** Deleting pieces never makes the joined text longer. *)
Lemma join_sublist_length pieces1 pieces2 :
  pieces1 `sublist_of` pieces2 →
  String.length (join pieces1) ≤ String.length (join pieces2).
Proof.
  induction 1 as [| piece pieces1 pieces2 Hsub IH | piece pieces1 pieces2 Hsub IH].
  - done.
  - destruct pieces1 as [|piece1 pieces1].
    + apply join_cons_length.
    + destruct pieces2 as [|piece2 pieces2].
      * by apply sublist_nil_r in Hsub.
      * cbn [join] in *. rewrite !str_length_app. cbn [String.length]. lia.
  - pose proof (join_cons_length piece pieces2). lia.
Qed.

End TextFacts.

(** ** Further properties of the rewritten text *)

Section Rewriting.
Import Str StrFacts TextFacts OS Fix.

Lemma split_rewritten content :
  filtered_lines (split content) ≠ [] →
  split (rewritten content) = filtered_lines (split content).
Proof.
  intros Hkept. unfold rewritten. apply split_join; [done |].
  apply filtered_lines_newline_free, split_newline_free.
Qed.

Lemma split_rewritten_kept content :
  Forall (λ line, should_keep line = true) (split (rewritten content)).
Proof.
  destruct (filtered_lines (split content)) as [|kept others] eqn:Hkept.
  - unfold rewritten. rewrite Hkept. by repeat constructor.
  - rewrite split_rewritten by (by rewrite Hkept). apply filtered_lines_kept.
Qed.

(** When at least one line is kept, the lines of the written text are
    exactly the kept lines: reading the file again after the run and
    splitting it gives the list the loop built. *)
Theorem written_lines_are_kept_lines (content : string) :
  filtered_lines (split content) ≠ [] →
  split (rewritten content) = filtered_lines (split content).
Proof. apply split_rewritten. Qed.

Lemma written_lines_are_kept_lines_witness :
  filtered_lines (split "main.swift") ≠ []
  ∧ split (rewritten "main.swift") = filtered_lines (split "main.swift").
Proof.
  assert (filtered_lines (split "main.swift") ≠ []) as Hkept
    by (vm_compute; discriminate).
  split; [exact Hkept |].
  exact (written_lines_are_kept_lines "main.swift" Hkept).
Defined.

(** When every line of the text mentions a deleted file without the
    exception marker, the text written back is empty. *)
Theorem all_lines_removable_empties_file (content : string) :
  (∀ line, line ∈ split content → removable line) →
  rewritten content = "".
Proof.
  intros Hall. unfold rewritten.
  destruct (filtered_lines (split content)) as [|line kept] eqn:Hkept; [done |].
  assert (line ∈ filtered_lines (split content)) as Hline
    by (rewrite Hkept; apply list_elem_of_here).
  rewrite filtered_lines_filter in Hline.
  apply list_elem_of_filter in Hline as [Hkeep Hin].
  apply Hall, should_keep_false in Hin. congruence.
Qed.

Lemma all_lines_removable_empties_file_witness :
  (∀ line, line ∈ split "PDFManager.swift" → removable line)
  ∧ rewritten "PDFManager.swift" = "".
Proof.
  assert (∀ line, line ∈ split "PDFManager.swift" → removable line) as Hall.
  { intros line Hin. apply list_elem_of_singleton in Hin as ->.
    by apply should_keep_false. }
  split; [exact Hall |].
  exact (all_lines_removable_empties_file "PDFManager.swift" Hall).
Defined.

(** After the run no line of the file can be removed any more: every line
    of the written text contains the exception marker or none of the
    deleted file names. *)
Theorem written_text_has_no_removable_line (content line : string) :
  line ∈ split (rewritten content) → ¬ removable line.
Proof.
  intros Hin Hrem. apply should_keep_false in Hrem.
  pose proof (split_rewritten_kept content) as Hall.
  rewrite Forall_forall in Hall. specialize (Hall line Hin). congruence.
Qed.

Lemma written_text_has_no_removable_line_witness :
  "" ∈ split (rewritten "PDFManager.swift") ∧ ¬ removable "".
Proof.
  assert ("" ∈ split (rewritten "PDFManager.swift")) as Hin
    by (vm_compute; apply list_elem_of_here).
  split; [exact Hin |].
  exact (written_text_has_no_removable_line "PDFManager.swift" "" Hin).
Defined.

(** The text written back differs from the text read exactly when some
    line of the text read mentions a deleted file without the exception
    marker. *)
Theorem text_unchanged_iff_no_removable_line (content : string) :
  rewritten content = content ↔
  ∀ line, line ∈ split content → ¬ removable line.
Proof.
  split.
  - intros Hsame line Hin Hrem. rewrite <-Hsame in Hin.
    apply should_keep_false in Hrem.
    pose proof (split_rewritten_kept content) as Hall.
    rewrite Forall_forall in Hall. specialize (Hall line Hin). congruence.
  - intros Hclean. unfold rewritten.
    rewrite filtered_lines_all_kept; [apply join_split |].
    apply Forall_forall. intros line Hin.
    destruct (should_keep line) eqn:Hkeep; [done |].
    apply should_keep_false in Hkeep. by destruct (Hclean line Hin).
Qed.

(** The text written back is never longer than the text read. *)
Theorem written_text_no_longer (content : string) :
  String.length (rewritten content) ≤ String.length content.
Proof.
  unfold rewritten. rewrite <-(join_split content) at 2.
  apply join_sublist_length, filtered_lines_sublist.
Qed.

(** The output has fewer lines than the input exactly when some input line
    mentions a deleted file without the exception marker. *)
Theorem fewer_lines_iff_some_removable (lines : list string) :
  length (filtered_lines lines) < length lines ↔ Exists removable lines.
Proof.
  rewrite filtered_lines_filter, Exists_exists. split.
  - intros Hlt.
    destruct (decide (Forall (λ line, should_keep line = true) lines))
      as [Hall | Hsome].
    + apply filtered_lines_all_kept in Hall.
      rewrite filtered_lines_filter in Hall. rewrite Hall in Hlt. lia.
    + apply not_Forall_Exists, Exists_exists in Hsome
        as (line & Hin & Hdrop); [| apply _].
      exists line. split; [done |]. apply should_keep_false.
      simpl in Hdrop. by destruct (should_keep line).
  - intros (line & Hin & Hrem). eapply length_filter_lt; [done |].
    apply should_keep_false in Hrem. congruence.
Qed.

(** Rewriting distributes over a newline between two texts that each keep
    at least one line: a file can be rewritten part by part. *)
Theorem rewritten_distributes_over_newline (part1 part2 : string) :
  filtered_lines (split part1) ≠ [] →
  filtered_lines (split part2) ≠ [] →
  rewritten (part1 +:+ String nl part2)
  = rewritten part1 +:+ String nl (rewritten part2).
Proof.
  intros Hkept1 Hkept2. unfold rewritten.
  rewrite split_app_newline, filtered_lines_app. by apply join_app.
Qed.

Lemma rewritten_distributes_over_newline_witness :
  filtered_lines (split "main.swift") ≠ []
  ∧ filtered_lines (split "App.swift") ≠ []
  ∧ rewritten ("main.swift" +:+ String nl "App.swift")
    = rewritten "main.swift" +:+ String nl (rewritten "App.swift").
Proof.
  assert (filtered_lines (split "main.swift") ≠ []) as Hkept1
    by (vm_compute; discriminate).
  assert (filtered_lines (split "App.swift") ≠ []) as Hkept2
    by (vm_compute; discriminate).
  split; [exact Hkept1 |]. split; [exact Hkept2 |].
  exact (rewritten_distributes_over_newline "main.swift" "App.swift"
           Hkept1 Hkept2).
Defined.

(** When the first part keeps no line, it disappears together with the
    newline that followed it. *)
Theorem removed_part_takes_its_newline (part1 part2 : string) :
  filtered_lines (split part1) = [] →
  rewritten (part1 +:+ String nl part2) = rewritten part2.
Proof.
  intros Hnone. unfold rewritten.
  by rewrite split_app_newline, filtered_lines_app, Hnone.
Qed.

Lemma removed_part_takes_its_newline_witness :
  filtered_lines (split "PDFManager.swift") = []
  ∧ rewritten ("PDFManager.swift" +:+ String nl "main.swift")
    = rewritten "main.swift".
Proof.
  assert (filtered_lines (split "PDFManager.swift") = []) as Hnone
    by reflexivity.
  split; [exact Hnone |].
  exact (removed_part_takes_its_newline "PDFManager.swift" "main.swift" Hnone).
Defined.

End Rewriting.

(** ** Further properties of a run *)

Section RunProperties.
Import Str StrFacts OS Fix.



(** The script prints on standard output nothing but its two messages,
    and only after the read and the write have succeeded; the next-step
    message is printed only after the success message, and exactly by the
    runs that end normally. *)
Theorem messages_printed_iff_success (w : world) :
  (∀ message,
     PrintLine message ∈ drop (length (trace w)) (trace (main w).2) →
     (message = success_message ∨ message = next_step_message)
     ∧ ∃ content,
         (read_text project_path w).1 = Ok content
         ∧ WriteData project_path (rewritten content)
           ∈ drop (length (trace w)) (trace (main w).2))
  ∧ (PrintLine next_step_message
       ∈ drop (length (trace w)) (trace (main w).2) →
     PrintLine success_message ∈ drop (length (trace w)) (trace (main w).2))
  ∧ ((main w).1 = Ok () ↔
     PrintLine next_step_message
       ∈ drop (length (trace w)) (trace (main w).2)).
Proof.
  assert (success_message ≠ next_step_message) as Hdiff by done.
  rewrite read_text_result, main_result, main_trace, drop_app_length.
  destruct (read_outcome w project_path) as [content | error];
    [destruct (open_write_outcome w project_path) as [flags | error] |].
  - destruct (stdout_accepts w success_message),
      (stdout_accepts w next_step_message); simpl;
      (split; [intros message | split]);
      rewrite ?elem_of_cons, ?elem_of_nil;
      try (intros Hin; split; [| exists content; split; [done |];
             rewrite ?elem_of_cons; tauto]);
      try (split; [intros [=] |]);
      try (split; [intros _ |]);
      intuition (try discriminate; try congruence; eauto).
  - simpl. (split; [intros message | split]);
      rewrite ?elem_of_cons, ?elem_of_nil;
      try (split; [intros [=] |]);
      intuition (try discriminate; try congruence).
  - simpl. (split; [intros message | split]);
      rewrite ?elem_of_cons, ?elem_of_nil;
      try (split; [intros [=] |]);
      intuition (try discriminate; try congruence).
Qed.

(** When the read succeeds and the project file may not be written, the
    run raises [PermissionError], the files are left as they were, and the
    calls made are the two opens: no data is written and no message is
    printed. *)
Theorem write_refused_leaves_file
    (w : world) (content : string) (readable : bool) (data : string) :
  (read_text project_path w).1 = Ok content →
  files w !! resolve w project_path = Some (RegularFile readable false data) →
  (main w).1 = Raise PermissionError
  ∧ files (main w).2 = files w
  ∧ trace (main w).2
    = trace w ++ [OpenRead project_path; OpenWrite project_path].
Proof.
  rewrite read_text_result. intros Hread Hnode.
  rewrite main_result, main_files, main_trace, Hread.
  apply read_outcome_ok in Hread as (wr & data' & Hwalk & _).
  unfold open_write_outcome. by rewrite Hwalk, Hnode.
Qed.

Lemma write_refused_leaves_file_witness :
  (read_text project_path
     (project_world (RegularFile true false "main.swift"))).1 = Ok "main.swift"
  ∧ files (project_world (RegularFile true false "main.swift"))
      !! resolve (project_world (RegularFile true false "main.swift"))
           project_path
    = Some (RegularFile true false "main.swift")
  ∧ (main (project_world (RegularFile true false "main.swift"))).1
    = Raise PermissionError.
Proof.
  assert ((read_text project_path
             (project_world (RegularFile true false "main.swift"))).1
          = Ok "main.swift") as Hread by (by vm_compute).
  assert (files (project_world (RegularFile true false "main.swift"))
            !! resolve (project_world (RegularFile true false "main.swift"))
                 project_path
          = Some (RegularFile true false "main.swift")) as Hnode
    by (by vm_compute).
  split; [exact Hread |]. split; [exact Hnode |].
  exact (proj1 (write_refused_leaves_file _ _ _ _ Hread Hnode)).
Defined.

End RunProperties.
